(** * Advent of Code 2024, days 4 and 5: a shallow embedding of the two
  JavaScript solvers and the properties stated about them.

  Conventions of the embedding.
  - A JavaScript string is a [list ascii] (8-bit characters);
    [split('')] and [join('')] on arrays of single characters are
    therefore the identity, except that [join] prints [undefined] as the
    empty string.
  - [undefined] is [None]; an array read out of range yields [None].
  - A thrown [TypeError] is [None] in the result of a function that can
    throw ([Day4.part2Solution]).
  - Page numbers and counts are integers ([Z], [nat]).  The sums of day 5
    are sums of doubles: [Day5.add] rounds the exact sum to the nearest
    double, and [None] stands for a result that is not a finite number
    ([NaN], or an infinity after an overflow). *)

From Stdlib Require Import ZArith Ascii String List Lia.
From stdpp Require Import base option list gmap.

Local Open Scope Z_scope.

(** ** The ECMAScript built-ins used by the solvers *)
Module JS.

(** [arr[i]] for a numeric index: [undefined] outside of [0 .. length-1]. *)
Definition get {A} (l : list A) (i : Z) : option A :=
  if i <? 0 then None else l !! Z.to_nat i.

(** [s.split(sep)] for a one-character separator. *)
Fixpoint split (sep : ascii) (s : list ascii) : list (list ascii) :=
  match s with
  | [] => [[]]
  | c :: t =>
      if Ascii.eqb c sep then [] :: split sep t
      else match split sep t with
           | r :: rs => (c :: r) :: rs
           | [] => [[c]]
           end
  end.

(** [arr.join(sep)] on an array of strings. *)
Fixpoint join (sep : list ascii) (parts : list (list ascii)) : list ascii :=
  match parts with
  | [] => []
  | p :: ps =>
      match ps with
      | [] => p
      | _ :: _ => p ++ sep ++ join sep ps
      end
  end.

(** [arr.join('')] on an array of single characters, some of which may be
    [undefined]: those contribute nothing. *)
Definition join_chars (cs : list (option ascii)) : list ascii :=
  omap id cs.

(** [s.slice(b, e)], on strings and on arrays alike: negative bounds
    count from the end, both are clamped. *)
Definition slice {A} (s : list A) (b e : Z) : list A :=
  let len := Z.of_nat (length s) in
  let from := if b <? 0 then Z.max (len + b) 0 else Z.min b len in
  let to := if e <? 0 then Z.max (len + e) 0 else Z.min e len in
  take (Z.to_nat (to - from)) (drop (Z.to_nat from) s).

(** The fragment of regular expressions that occurs in the sources: a
    sequence of literal characters and [.] wildcards. *)
Inductive atom : Type :=
| Lit (c : ascii)
| Dot.

(** Without the [s] flag, [.] does not match a line terminator: line feed
    or carriage return (U+2028 and U+2029 are not among the 8-bit
    characters of this model). *)
Definition is_line_terminator (c : ascii) : bool :=
  Ascii.eqb c "010" || Ascii.eqb c "013".

Definition atom_matches (a : atom) (c : ascii) : bool :=
  match a with
  | Lit d => Ascii.eqb c d
  | Dot => negb (is_line_terminator c)
  end.

(** Does the pattern match at the very start of [s]? *)
Fixpoint matches_at (r : list atom) (s : list ascii) : bool :=
  match r with
  | [] => true
  | a :: r' =>
      match s with
      | [] => false
      | c :: s' => atom_matches a c && matches_at r' s'
      end
  end.

(** [s.match(r)] without the [g] flag, used as a truth value: is there a
    match starting anywhere in [s]? *)
Fixpoint test (r : list atom) (s : list ascii) : bool :=
  matches_at r s ||
  match s with
  | [] => false
  | _ :: t => test r t
  end.

(** [(s.match(r) || []).length] with the [g] flag.  The matcher reports
    the leftmost match at or after [lastIndex] and resumes at the end of
    that match (one further when the match is empty).  [skip] is the
    number of characters left before [lastIndex] is reached. *)
Fixpoint match_count_from (r : list atom) (skip : nat) (s : list ascii) : nat :=
  match s with
  | [] => if matches_at r [] then 1%nat else 0%nat
  | _ :: t =>
      match skip with
      | S k => match_count_from r k t
      | O =>
          if matches_at r s
          then S (match_count_from r (pred (length r)) t)
          else match_count_from r 0 t
      end
  end.

Definition match_count (r : list atom) (s : list ascii) : nat :=
  match_count_from r 0 s.

(** A regular expression literal made of ordinary characters only. *)
Definition literal (p : list ascii) : list atom := fmap Lit p.

(** [arr.forEach(f)] where [f] updates a captured variable and may throw. *)
Fixpoint forEach {A S} (l : list A) (f : A -> S -> option S) (s : S) : option S :=
  match l with
  | [] => Some s
  | a :: l' =>
      match f a s with
      | Some s' => forEach l' f s'
      | None => None
      end
  end.

End JS.

(** ** The lodash functions used by day 4 *)
Module Lodash.

(** [_.range(end)]: starts at 0 and steps by 1 towards a positive [end],
    by -1 towards a negative one; [_.range(-4)] is [[0, -1, -2, -3]]. *)
Definition range (n : Z) : list Z :=
  let step := if 0 <? n then 1 else -1 in
  let len := Z.to_nat (Z.max ((n - 0) / step) 0) in
  fmap (fun k => 0 + step * Z.of_nat k) (seq 0 len).

(** [_.rangeRight(end)]: the same values, filled in from the right. *)
Definition rangeRight (n : Z) : list Z := reverse (range n).

(** [_.zip(...arrays)]: as long as the longest array, shorter ones are
    padded with [undefined]. *)
Definition unzip {A} (arrays : list (list A)) : list (list (option A)) :=
  fmap (fun i => fmap (fun a => a !! i) arrays)
      (seq 0 (max_list (fmap length arrays))).

(** The two-array case, with the groups as pairs. *)
Definition zip {A B} (a : list A) (b : list B) : list (option A * option B) :=
  fmap (fun i => (a !! i, b !! i)) (seq 0 (Nat.max (length a) (length b))).

End Lodash.

(** ** Day 4 *)
Module Day4.
Import JS Lodash.

Definition newline : ascii := "010".

Definition example : list ascii := list_ascii_of_string
"MMMSXXMASM
MSAMXMSMSA
AMXSXMAAMM
MSAMASMSMX
XMASAMXAMM
XXAMMXXAMA
SMSMSASXSS
SAXAMASAAA
MAMMMXMMMM
MXMXAXMASX".

(** [text[x][y]]: a character of the grid, [undefined] past the end of a row. *)
Definition char_at (text : list (list ascii)) (x y : Z) : option ascii :=
  match get text x with
  | Some row => get row y
  | None => None
  end.

(** The columns: [_.zip(...text.map(x => x.split(''))).map(x => x.join(''))]. *)
Definition transposed (text : list (list ascii)) : list (list ascii) :=
  fmap join_chars (unzip text).

(** The filter of both diagonal extractions; a comparison with
    [undefined] is false. *)
Definition in_grid (n : Z) (p : option Z * option Z) : bool :=
  match p with
  | (Some x, Some y) => (0 <=? x) && (x <? n) && (0 <=? y) && (y <? n)
  | _ => false
  end.

(** The coordinates visited for index [i]: [(k, i-k)] for [k = 0..i],
    restricted to the grid. *)
Definition diag_cells (n : Z) (i : nat) : list (option Z * option Z) :=
  List.filter (in_grid n)
    (zip (range (Z.of_nat i + 1)) (rangeRight (Z.of_nat i + 1))).

(** [new Array(text.length*2-1).fill().map((e, i) => ...)]; [text] comes
    from [split] and is never empty, so the length is at least 1. *)
Definition diag1 (text : list (list ascii)) : list (list ascii) :=
  let n := Z.of_nat (length text) in
  fmap (fun i =>
         join_chars
           (fmap (fun p => match p with
                          | (Some x, Some y) => char_at text x y
                          | _ => None
                          end)
                (diag_cells n i)))
      (seq 0 (Z.to_nat (n * 2 - 1))).

Definition diag2 (text : list (list ascii)) : list (list ascii) :=
  let n := Z.of_nat (length text) in
  fmap (fun i =>
         join_chars
           (fmap (fun p => match p with
                          | (Some x, Some y) => char_at text (n - x - 1) y
                          | _ => None
                          end)
                (diag_cells n i)))
      (seq 0 (Z.to_nat (n * 2 - 1))).

Definition XMAS : list atom := literal (list_ascii_of_string "XMAS").
Definition SAMX : list atom := literal (list_ascii_of_string "SAMX").

(** The contribution of one line to [count]. *)
Definition line_count (line : list ascii) : nat :=
  (match_count XMAS line + match_count SAMX line)%nat.

(** The four families of lines, in the order they are scanned. *)
Definition lines (text : list (list ascii)) : list (list (list ascii)) :=
  [text; transposed text; diag1 text; diag2 text].

Definition part1Solution (input : list ascii) : nat :=
  let text := split newline input in
  foldl (fun count grid =>
           foldl (fun count line => (count + line_count line)%nat) count grid)
        0%nat (lines text).

Definition permutations : list (list atom) :=
  [ [Lit "M"; Dot; Lit "S"; Lit newline; Dot; Lit "A"; Dot; Lit newline; Lit "M"; Dot; Lit "S"];
    [Lit "M"; Dot; Lit "M"; Lit newline; Dot; Lit "A"; Dot; Lit newline; Lit "S"; Dot; Lit "S"];
    [Lit "S"; Dot; Lit "M"; Lit newline; Dot; Lit "A"; Dot; Lit newline; Lit "S"; Dot; Lit "M"];
    [Lit "S"; Dot; Lit "S"; Lit newline; Dot; Lit "A"; Dot; Lit newline; Lit "M"; Dot; Lit "M"] ]%char.

(** The 3x3 section at [(x, y)] as a newline separated string; reading a
    row that does not exist and calling [slice] on it throws. *)
Definition section3 (text : list (list ascii)) (x y : Z) : option (list ascii) :=
  match mapM (fun i => match get text (x + i) with
                       | Some row => Some (slice row y (y + 3))
                       | None => None
                       end) [0; 1; 2] with
  | Some rows => Some (join [newline] rows)
  | None => None
  end.

Definition part2Solution (input : list ascii) : option nat :=
  let text := split newline input in
  let n := Z.of_nat (length text) in
  forEach (range (n - 2)) (fun x count =>
    forEach (range (n - 2)) (fun y count =>
      match section3 text x y with
      | Some grid =>
          Some (if existsb (fun regex => test regex grid) permutations
                then S count else count)
      | None => None
      end) count) 0%nat.

End Day4.

(** ** Day 5 *)
Module Day5.
Import JS.

(** The solvers are modelled on their parsed input: [rules] is the list of
    number pairs read from the lines [a|b] of [rawRules], [orders] the list
    of number lists read from the lines of [rawOrders].  The page numbers
    are integers, each of them a double, as [Number] returns them. *)

(** One step of the [reduce] that builds the rule object:
    [{...obj, [page1]: [...(obj[page1] || []), page2]}]. *)
Definition add_rule (obj : gmap Z (list Z)) (r : Z * Z) : gmap Z (list Z) :=
  <[r.1 := default [] (obj !! r.1) ++ [r.2]]> obj.

Definition rule_map (rules : list (Z * Z)) : gmap Z (list Z) :=
  foldl add_rule ∅ rules.

(** [!rules[b] || !rules[b].includes(a)] *)
Definition no_rule (rules : gmap Z (list Z)) (b a : Z) : bool :=
  match rules !! b with
  | None => true
  | Some after => negb (bool_decide (a ∈ after))
  end.

(** The callback of [every]: [(page, i) => !rules[pages[i+1]] || ...];
    [rules[undefined]] is [undefined]. *)
Definition pair_ok (rules : gmap Z (list Z)) (pages : list Z) (i : nat) (page : Z) : bool :=
  match pages !! (i + 1)%nat with
  | Some next => no_rule rules next page
  | None => true
  end.

(** [pages.slice(0,-1).every(...)] *)
Definition in_order (rules : gmap Z (list Z)) (pages : list Z) : bool :=
  forallb id (imap (pair_ok rules pages) (slice pages 0 (-1))).

(** [pages[Math.floor(pages.length / 2)]] *)
Definition middle (pages : list Z) : option Z :=
  pages !! (length pages / 2)%nat.

(** The double nearest to the integer [s], as the addition of two doubles
    rounds its exact result: an integer of at most 53 bits is a double;
    a longer one keeps its 53 leading bits, rounded to nearest with ties
    to the even mantissa.  The result is [None] when it is not finite: from
    [2^1024 - 2^970] on, the sum overflows to an infinity. *)
Definition round_double (s : Z) : option Z :=
  let a := Z.abs s in
  let e := Z.log2 a - 52 in
  if e <=? 0 then Some s
  else
    let q := a / 2 ^ e in
    let r := a mod 2 ^ e in
    let half := 2 ^ (e - 1) in
    let q' := if r <? half then q
              else if half <? r then q + 1
              else if Z.even q then q else q + 1 in
    let m := q' * 2 ^ e in
    if 2 ^ 1024 <=? m then None else Some (Z.sgn s * m).

(** [a + b] on numbers that are integers, [undefined], [NaN] or infinite.
    [undefined] and [NaN] give [NaN]; an infinity gives an infinity or
    [NaN]; two finite numbers give the double nearest to their sum. *)
Definition add (a b : option Z) : option Z :=
  match a, b with
  | Some x, Some y => round_double (x + y)
  | _, _ => None
  end.

(** [.reduce((a, b) => a + b, 0)] *)
Definition sum (l : list (option Z)) : option Z := foldl add (Some 0) l.

(** The order lists that pass the filter of [part1Solution]. *)
Definition kept1 (rules : list (Z * Z)) (orders : list (list Z)) : list (list Z) :=
  List.filter (in_order (rule_map rules)) orders.

Definition part1Solution (rules : list (Z * Z)) (orders : list (list Z)) : option Z :=
  sum (fmap middle (kept1 rules orders)).

(** The order lists that pass the filter of [part2Solution]. *)
Definition kept2 (rules : list (Z * Z)) (orders : list (list Z)) : list (list Z) :=
  List.filter (fun pages => negb (in_order (rule_map rules) pages)) orders.

(** [(a, b) => !rules[b] || !rules[b].includes(a) ? 1 : -1] *)
Definition compare_pages (rules : gmap Z (list Z)) (a b : Z) : Z :=
  if no_rule rules b a then 1 else -1.

Section ArraySort.
(** [Array.prototype.sort(comparefn)].  The comparator above is not a
    consistent ordering in general, and the order produced for such a
    comparator is left to the implementation, so the sort is a
    parameter of the model. *)
Variable sort : (Z -> Z -> Z) -> list Z -> list Z.

Definition part2Solution (rules : list (Z * Z)) (orders : list (list Z)) : option Z :=
  sum (fmap middle
         (fmap (sort (compare_pages (rule_map rules))) (kept2 rules orders))).
End ArraySort.

End Day5.

(** ** Reference notions used in the statements *)
Module Spec.
Import JS Day4.

(** [whole r w]: the pattern [r] matches the word [w] from end to end. *)
Definition whole (r : list atom) (w : list ascii) : Prop :=
  Forall2 (fun a c => atom_matches a c = true) r w.

(** [packed r n s]: [s] contains [n] matches of [r] that do not overlap. *)
Inductive packed (r : list atom) : nat -> list ascii -> Prop :=
| packed_O s : packed r 0 s
| packed_S g w s n : whole r w -> packed r n s -> packed r (S n) (g ++ w ++ s).

(** The number of positions of [l] at which [p] occurs; occurrences may
    overlap, each position counts. *)
Fixpoint occurrences (p l : list ascii) : nat :=
  match l with
  | [] => 0%nat
  | _ :: t =>
      ((if bool_decide (p `prefix_of` l) then 1 else 0) + occurrences p t)%nat
  end.

(** The character in row [x], column [y] of the grid. *)
Definition cell (text : list (list ascii)) (x y : nat) : option ascii :=
  match text !! x with
  | Some row => row !! y
  | None => None
  end.

(** A template: the characters required at the top-left, top-right,
    bottom-left and bottom-right corners; the centre is always [A]. *)
Definition templates : list (ascii * ascii * ascii * ascii) :=
  [ ("M", "S", "M", "S"); ("M", "M", "S", "S");
    ("S", "M", "S", "M"); ("S", "S", "M", "M") ]%char.

Definition is_char (c : ascii) (o : option ascii) : bool :=
  match o with
  | Some d => Ascii.eqb d c
  | None => false
  end.

(** What a wildcard position accepts: [wild c] for a character [c]. *)
Definition is_wild (wild : ascii -> bool) (o : option ascii) : bool :=
  match o with
  | Some d => wild d
  | None => false
  end.

Definition window_matches (wild : ascii -> bool) (text : list (list ascii))
    (x y : nat) (t : ascii * ascii * ascii * ascii) : bool :=
  let '(tl, tr, bl, br) := t in
  is_char tl (cell text x y) && is_wild wild (cell text x (y + 1))
    && is_char tr (cell text x (y + 2))
  && is_wild wild (cell text (x + 1) y) && is_char "A" (cell text (x + 1) (y + 1))
    && is_wild wild (cell text (x + 1) (y + 2))
  && is_char bl (cell text (x + 2) y) && is_wild wild (cell text (x + 2) (y + 1))
    && is_char br (cell text (x + 2) (y + 2)).

(** The number of 3x3 windows of an [n] x [n] grid that match at least one
    template. *)
Definition count_windows (wild : ascii -> bool) (text : list (list ascii)) (n : nat) : nat :=
  length (List.filter
            (fun p => existsb (window_matches wild text p.1 p.2) templates)
            (list_prod (seq 0 (n - 2)) (seq 0 (n - 2)))).

(** The regular expression of a template. *)
Definition regex_of (t : ascii * ascii * ascii * ascii) : list atom :=
  let '(tl, tr, bl, br) := t in
  [Lit tl; Dot; Lit tr; Lit newline; Dot; Lit "A"; Dot; Lit newline;
   Lit bl; Dot; Lit br]%char.

(** A 3x3 grid with a carriage return at the middle of its top edge. *)
Definition cr_grid : list ascii :=
  [ "M"; "013"; "S"; newline; "X"; "A"; "X"; newline; "M"; "X"; "S" ]%char.



(** Wildcards that accept every character. *)
Definition any_char (c : ascii) : bool := true.

(** Wildcards that accept every character but a line terminator. *)
Definition not_line_end (c : ascii) : bool := negb (is_line_terminator c).

End Spec.

Import JS Lodash.
Local Open Scope nat_scope.

(** ** Regular expression matching *)
Section Matching.
Import Spec.
Implicit Types (r : list atom) (s w : list ascii).

Lemma matches_at_whole r s :
  matches_at r s = true <-> exists w rest, s = w ++ rest /\ whole r w.
Proof.
  revert s. induction r as [|a r IH]; intros s; simpl.
  - split; [intros _; exists [], s; split; [done | constructor] | done].
  - destruct s as [|c s].
    + split; [done |]. intros (w & rest & Hs & Hw).
      inversion Hw; subst. discriminate.
    + rewrite andb_true_iff, IH. split.
      * intros (Hc & w & rest & -> & Hw).
        exists (c :: w), rest. split; [done | by constructor].
      * intros (w & rest & Hs & Hw). inversion Hw as [|? c' ? w' Hc Hw']; subst.
        injection Hs as -> ->. split; [done | by exists w', rest].
Qed.

Lemma whole_length r w : whole r w -> length w = length r.
Proof. intros H. symmetry. by eapply Forall2_length. Qed.

Lemma whole_reverse r w : whole r w -> whole (reverse r) (reverse w).
Proof. apply Forall2_reverse. Qed.

Lemma matches_at_literal (p : list ascii) s :
  matches_at (literal p) s = bool_decide (p `prefix_of` s).
Proof.
  revert s. induction p as [|a p IH]; intros s.
  - symmetry. apply bool_decide_eq_true_2, prefix_nil.
  - destruct s as [|c s].
    + symmetry. apply bool_decide_eq_false_2, prefix_nil_not.
    + change (Ascii.eqb c a && matches_at (literal p) s
              = bool_decide (a :: p `prefix_of` c :: s)).
      rewrite IH. destruct (Ascii.eqb c a) eqn:E; simpl.
      * apply Ascii.eqb_eq in E as ->. apply bool_decide_ext. split.
        -- apply prefix_cons.
        -- apply prefix_cons_inv_2.
      * symmetry. apply bool_decide_eq_false_2. intros H.
        apply prefix_cons_inv_1 in H as ->. by rewrite Ascii.eqb_refl in E.
Qed.

Lemma packed_app_l r n x s : packed r n s -> packed r n (x ++ s).
Proof.
  intros [s'|g w s' m Hw Hp]; [constructor |].
  rewrite (assoc_L (++) x g). by constructor.
Qed.

Lemma packed_snoc r n s w g : whole r w -> packed r n s -> packed r (S n) (s ++ w ++ g).
Proof.
  intros Hw Hp. induction Hp as [s|g' w' s n Hw' Hp IH].
  - apply packed_S; [done | constructor].
  - rewrite <- !(assoc_L (++)). apply packed_S; [done |].
    rewrite !(assoc_L (++)). rewrite <- (assoc_L (++) s w g). exact IH.
Qed.

Lemma packed_reverse r n s : packed r n s -> packed (reverse r) n (reverse s).
Proof.
  induction 1 as [s|g w s n Hw Hp IH]; [constructor |].
  rewrite !reverse_app, <- (assoc_L (++)).
  apply packed_snoc; [by apply whole_reverse | done].
Qed.

(** The matches reported by the global scan do not overlap ... *)
Lemma match_count_from_packed r skip s :
  r <> [] -> packed r (match_count_from r skip s) (drop skip s).
Proof.
  intros Hr. revert skip. induction s as [|c t IH]; intros skip; simpl.
  - destruct r; [done |]. simpl. rewrite drop_nil. constructor.
  - destruct skip as [|k]; [| apply IH].
    rewrite drop_0. destruct (matches_at r (c :: t)) eqn:E.
    + apply matches_at_whole in E as (w & rest & Hs & Hw).
      pose proof (whole_length _ _ Hw) as Hl.
      specialize (IH (pred (length r))).
      replace (drop (pred (length r)) t) with rest in IH.
      * rewrite Hs. by apply (packed_S r [] w rest).
      * destruct w as [|c' w]; [destruct r; [done | discriminate] |].
        injection Hs as -> ->. rewrite <- Hl. simpl. by rewrite drop_app_length.
    + apply (packed_app_l r _ [c]). specialize (IH 0%nat). by rewrite drop_0 in IH.
Qed.

(** ... and no selection of matches that do not overlap is larger. *)
Lemma packed_le_match_count_from r skip s n :
  r <> [] -> packed r n (drop skip s) -> n <= match_count_from r skip s.
Proof.
  intros Hr. revert skip n. induction s as [|c t IH]; intros skip n Hp.
  - rewrite drop_nil in Hp. inversion Hp as [|g w s' m Hw Hp' Hn Hs]; [lia |].
    destruct g, w; try discriminate. inversion Hw; subst. done.
  - destruct skip as [|k]; simpl; [| by apply IH].
    rewrite drop_0 in Hp.
    destruct (matches_at r (c :: t)) eqn:E.
    + inversion Hp as [|g w s' m Hw Hp' Hn Hs]; [lia |].
      pose proof (whole_length _ _ Hw) as Hl.
      apply le_n_S, IH.
      replace (drop (pred (length r)) t) with (drop (length r) (c :: t))
        by (destruct r; [done | reflexivity]).
      rewrite <- Hs, (assoc_L (++)), drop_app_le by (rewrite length_app; lia).
      by apply packed_app_l.
    + inversion Hp as [|g w s' m Hw Hp' Hn Hs]; [lia |].
      destruct g as [|c' g].
      * exfalso. simpl in Hs. rewrite <- Hs in E.
        assert (matches_at r (w ++ s') = true) as E'
          by (apply matches_at_whole; by exists w, s').
        congruence.
      * injection Hs as -> <-. apply IH. rewrite drop_0. by constructor.
Qed.

Lemma match_count_empty s : match_count [] s = S (length s).
Proof. unfold match_count. induction s as [|c t IH]; simpl; [done | by rewrite IH]. Qed.

Lemma match_count_le_reverse r s :
  r <> [] -> match_count r s <= match_count (reverse r) (reverse s).
Proof.
  intros Hr. unfold match_count.
  apply packed_le_match_count_from.
  - intros H. apply Hr. by rewrite <- (reverse_involutive r), H.
  - rewrite drop_0. apply packed_reverse.
    pose proof (match_count_from_packed r 0 s Hr) as H. by rewrite drop_0 in H.
Qed.

Lemma match_count_reverse r s :
  match_count (reverse r) (reverse s) = match_count r s.
Proof.
  destruct r as [|a r].
  - by rewrite reverse_nil, !match_count_empty, length_reverse.
  - apply Nat.le_antisymm; [| by apply match_count_le_reverse].
    rewrite <- (reverse_involutive (a :: r)) at 2.
    rewrite <- (reverse_involutive s) at 2.
    apply match_count_le_reverse.
    intros H. apply (f_equal reverse) in H. by rewrite reverse_involutive in H.
Qed.

End Matching.

(** ** Day 4, part 1: counting the pattern *)
Section PatternCount.
Import Day4 Spec.

Lemma occurrences_cons p c t :
  occurrences p (c :: t)
  = (if matches_at (literal p) (c :: t) then 1 else 0) + occurrences p t.
Proof. by rewrite matches_at_literal. Qed.

(** Neither [XMAS] nor [SAMX] can overlap itself, so skipping the rest
    of a match loses no occurrence. *)
Ltac skip_match IH E t :=
  rewrite IH; simpl in E;
  destruct t as [|? [|? [|? ?]]]; simpl in E;
  rewrite ?andb_false_r in E; try discriminate;
  repeat match goal with
         | H : _ && _ = true |- _ => apply andb_true_iff in H as [? ?]
         | H : Ascii.eqb _ _ = true |- _ => apply Ascii.eqb_eq in H; subst
         end;
  rewrite !occurrences_cons; reflexivity.

Lemma match_count_from_XMAS s skip :
  match_count_from XMAS skip s
  = occurrences (list_ascii_of_string "XMAS") (drop skip s).
Proof.
  revert skip. induction s as [|c t IH]; intros skip.
  - by rewrite drop_nil.
  - destruct skip as [|k]; [| apply IH].
    rewrite drop_0, occurrences_cons.
    change (match_count_from XMAS 0 (c :: t))
      with (if matches_at XMAS (c :: t)
            then S (match_count_from XMAS 3 t) else match_count_from XMAS 0 t).
    fold XMAS. destruct (matches_at XMAS (c :: t)) eqn:E.
    + skip_match IH E t.
    + by rewrite IH, drop_0.
Qed.

Lemma match_count_from_SAMX s skip :
  match_count_from SAMX skip s
  = occurrences (list_ascii_of_string "SAMX") (drop skip s).
Proof.
  revert skip. induction s as [|c t IH]; intros skip.
  - by rewrite drop_nil.
  - destruct skip as [|k]; [| apply IH].
    rewrite drop_0, occurrences_cons.
    change (match_count_from SAMX 0 (c :: t))
      with (if matches_at SAMX (c :: t)
            then S (match_count_from SAMX 3 t) else match_count_from SAMX 0 t).
    fold SAMX. destruct (matches_at SAMX (c :: t)) eqn:E.
    + skip_match IH E t.
    + by rewrite IH, drop_0.
Qed.

Lemma foldl_count {A} (f : A -> nat) (l : list A) (count : nat) :
  foldl (fun count a => count + f a) count l = count + sum_list_with f l.
Proof.
  revert count. induction l as [|a l IH]; intros count; csimpl; [lia |].
  rewrite IH. lia.
Qed.

Lemma part1Solution_sum input :
  part1Solution input
  = sum_list_with line_count (concat (lines (split newline input))).
Proof.
  unfold part1Solution, lines. simpl.
  rewrite !foldl_count, app_nil_r, !sum_list_with_app. lia.
Qed.

Lemma sum_list_with_ext {A} (f g : A -> nat) (l : list A) :
  (forall a, f a = g a) -> sum_list_with f l = sum_list_with g l.
Proof. intros H. induction l as [|a l IH]; simpl; [done | by rewrite H, IH]. Qed.

(** C2: for the fixed pattern [XMAS], the count added for a line is the
    number of (possibly overlapping) occurrences of the pattern plus the
    number of occurrences of the reversed pattern, and [part1Solution]
    returns the sum of these counts over all extracted lines. *)
Theorem day4_pattern_counter :
  let p := list_ascii_of_string "XMAS" in
  (forall line : list ascii,
      line_count line = occurrences p line + occurrences (reverse p) line)
  /\ (forall input : list ascii,
        part1Solution input
        = sum_list_with
            (fun line => occurrences p line + occurrences (reverse p) line)
            (concat (lines (split newline input)))).
Proof.
  intros p.
  assert (forall line, line_count line
                       = occurrences p line + occurrences (reverse p) line) as H.
  { intros line. unfold line_count, match_count.
    rewrite match_count_from_XMAS, match_count_from_SAMX. by rewrite drop_0. }
  split; [exact H |].
  intros input. rewrite part1Solution_sum. by apply sum_list_with_ext.
Qed.

(** C8: the number of matches of a pattern in a line, as the global
    scan counts them, equals the number of matches of the reversed
    pattern in the reversed line. *)
Theorem day4_pattern_count_reversal (p line : list ascii) :
  match_count (literal p) line
  = match_count (literal (reverse p)) (reverse line).
Proof.
  unfold literal. by rewrite fmap_reverse, match_count_reverse.
Qed.

(** C3: on the example grid [part1Solution] returns 18. *)
Theorem day4_part1_example : part1Solution example = 18.
Proof. vm_compute. reflexivity. Qed.

(** C5: on the example grid [part2Solution] returns 9. *)
Theorem day4_part2_example : part2Solution example = Some 9.
Proof. vm_compute. reflexivity. Qed.

End PatternCount.

(** ** Day 4: the extracted lines *)
Section Lines.
Import Day4.
Implicit Types (text : list (list ascii)).

Lemma max_list_const (ns : list nat) (m : nat) :
  ns <> [] -> Forall (fun n => n = m) ns -> max_list ns = m.
Proof.
  intros Hne H. induction H as [|n ns -> _ IH]; [done |].
  destruct ns as [|n' ns]; [simpl; lia |].
  change (max_list (m :: n' :: ns)) with (m `max` max_list (n' :: ns)).
  rewrite IH by done. lia.
Qed.

Lemma length_transposed text m :
  text <> [] -> Forall (fun row => length row = m) text ->
  length (transposed text) = m.
Proof.
  intros Hne H. unfold transposed, unzip.
  rewrite !length_fmap, length_seq. apply max_list_const.
  - by destruct text.
  - by apply Forall_fmap.
Qed.

Lemma length_diag1 text : length (diag1 text) = 2 * length text - 1.
Proof. unfold diag1. rewrite length_fmap, length_seq. lia. Qed.

Lemma length_diag2 text : length (diag2 text) = 2 * length text - 1.
Proof. unfold diag2. rewrite length_fmap, length_seq. lia. Qed.

(** C1: for a square grid of size [n >= 1] the extraction yields [n]
    rows, [n] columns and [2n-1] diagonals in each of the two diagonal
    directions. *)
Theorem day4_line_counts text (n : nat) :
  1 <= n ->
  length text = n ->
  Forall (fun row => length row = n) text ->
  lines text = [text; transposed text; diag1 text; diag2 text]
  /\ length text = n
  /\ length (transposed text) = n
  /\ length (diag1 text) = 2 * n - 1
  /\ length (diag2 text) = 2 * n - 1.
Proof.
  intros Hn Hlen Hrows. split; [done |]. split; [done |].
  split; [| by rewrite length_diag1, length_diag2, Hlen].
  apply length_transposed; [| done]. intros ->. simpl in Hlen. lia.
Qed.

Lemma day4_line_counts_witness :
  let text := split newline example in
  1 <= 10 /\ length text = 10 /\ Forall (fun row => length row = 10) text
  /\ length (transposed text) = 10
  /\ length (diag1 text) = 19 /\ length (diag2 text) = 19.
Proof.
  intros text.
  assert (1 <= 10) as H1 by lia.
  assert (length text = 10) as H2 by reflexivity.
  assert (Forall (fun row => length row = 10) text) as H3
    by (vm_compute; repeat constructor).
  destruct (day4_line_counts text 10 H1 H2 H3) as (_ & _ & Ht & Hd1 & Hd2).
  repeat split; assumption.
Defined.

Lemma join_chars_Some (c : ascii) (cs : list (option ascii)) :
  join_chars (Some c :: cs) = c :: join_chars cs.
Proof. reflexivity. Qed.

(** Column [j] of a grid whose rows all reach column [j]. *)
Lemma column_lookup text (j i : nat) :
  Forall (fun row => j < length row) text ->
  join_chars ((fun row => row !! j) <$> text) !! i
  = text !! i ≫= (fun row => row !! j).
Proof.
  intros H. revert i. induction H as [|row text Hrow _ IH]; intros i; [done |].
  apply lookup_lt_is_Some in Hrow as [c Hc].
  rewrite fmap_cons, Hc, join_chars_Some.
  destruct i as [|i]; simpl; [done | apply IH].
Qed.

Lemma column_length text (j : nat) :
  Forall (fun row => j < length row) text ->
  length (join_chars ((fun row => row !! j) <$> text)) = length text.
Proof.
  induction 1 as [|row text Hrow _ IH]; [done |].
  apply lookup_lt_is_Some in Hrow as [c Hc].
  rewrite fmap_cons, Hc, join_chars_Some. simpl. by rewrite IH.
Qed.

Lemma transposed_lookup text (m j : nat) :
  text <> [] -> Forall (fun row => length row = m) text ->
  transposed text !! j
  = if decide (j < m) then Some (join_chars ((fun row => row !! j) <$> text))
    else None.
Proof.
  intros Hne H. unfold transposed, unzip.
  rewrite (max_list_const _ m); [| by destruct text | by apply Forall_fmap].
  rewrite !list_lookup_fmap. destruct (decide (j < m)) as [Hj|Hj].
  - by rewrite lookup_seq_lt.
  - by rewrite lookup_seq_ge by lia.
Qed.

Lemma transposed_rows text (m : nat) :
  text <> [] -> Forall (fun row => length row = m) text ->
  Forall (fun col => length col = length text) (transposed text).
Proof.
  intros Hne H. apply Forall_lookup. intros j col Hcol.
  rewrite (transposed_lookup text m) in Hcol by done.
  destruct (decide (j < m)) as [Hj|]; [| done]. injection Hcol as <-.
  apply column_length. eapply Forall_impl; [exact H |]. simpl. intros; lia.
Qed.

(** Transposing twice gives the grid back, for every rectangular grid
    with at least one column. *)
Lemma transposed_involutive text (m : nat) :
  1 <= m -> Forall (fun row => length row = m) text ->
  transposed (transposed text) = text.
Proof.
  intros Hm H. destruct (decide (text = [])) as [->|Hne]; [done |].
  pose proof (transposed_rows text m Hne H) as Hcols.
  pose proof (length_transposed text m Hne H) as Hlen.
  assert (transposed text <> []) as Hne' by (intros E; rewrite E in Hlen; simpl in Hlen; lia).
  apply list_eq. intros i.
  rewrite (transposed_lookup _ (length text)) by done.
  destruct (decide (i < length text)) as [Hi|Hi].
  - destruct (lookup_lt_is_Some_2 text i Hi) as [row Hrow]. rewrite Hrow. f_equal.
    assert (length row = m) as Hr by (by eapply (proj1 (Forall_lookup _ _) H)).
    apply list_eq. intros j.
    rewrite column_lookup
      by (eapply Forall_impl; [exact Hcols |]; simpl; intros; lia).
    rewrite (transposed_lookup text m) by done.
    destruct (decide (j < m)) as [Hj|Hj]; simpl.
    + rewrite column_lookup by (eapply Forall_impl; [exact H |]; simpl; intros; lia).
      by rewrite Hrow.
    + symmetry. apply lookup_ge_None. lia.
  - symmetry. apply lookup_ge_None. lia.
Qed.

(** C7: transposing the column lines of a square grid reconstructs the
    grid. *)
Theorem day4_transpose_round_trip text :
  Forall (fun row => length row = length text) text ->
  transposed (transposed text) = text.
Proof.
  intros H. destruct text as [|row text]; [done |].
  apply (transposed_involutive _ (length (row :: text))); [simpl; lia | done].
Qed.

Lemma day4_transpose_round_trip_witness :
  let text := split newline example in
  Forall (fun row => length row = length text) text
  /\ transposed (transposed text) = text.
Proof.
  intros text.
  assert (Forall (fun row => length row = length text) text) as H
    by (vm_compute; repeat constructor).
  split; [exact H | exact (day4_transpose_round_trip text H)].
Defined.

(** C6: on a 1x1 grid the extraction yields one row, one column and one
    diagonal of length 1 in each direction, but [part2Solution] does not
    return 0: [_.range(-1)] is [[0]], the window at [(0, 0)] is read and
    [text[1].slice] throws. *)
Theorem day4_one_by_one (c : ascii) :
  c <> newline ->
  let text := split newline [c] in
  text = [[c]]
  /\ transposed text = [[c]]
  /\ diag1 text = [[c]]
  /\ diag2 text = [[c]]
  /\ range (Z.of_nat (length text) - 2) = [0%Z]
  /\ part2Solution [c] = None.
Proof.
  intros Hc. apply Ascii.eqb_neq in Hc.
  unfold part2Solution. simpl. rewrite Hc. repeat split.
Qed.

Lemma day4_one_by_one_witness :
  "X"%char <> newline /\ part2Solution [ "X"%char ] = None.
Proof.
  assert ("X"%char <> newline) as H by discriminate.
  split; [exact H |].
  exact (proj2 (proj2 (proj2 (proj2 (proj2 (day4_one_by_one "X" H)))))).
Defined.

End Lines.

(** ** Day 4, part 2: the 3x3 windows *)
Section Windows.
Import Day4 Spec.
Implicit Types (text : list (list ascii)).

Lemma range_of_nat (n : nat) : range (Z.of_nat n) = Z.of_nat <$> seq 0 n.
Proof.
  unfold range. destruct n as [|n]; [reflexivity |].
  replace (0 <? Z.of_nat (S n))%Z with true by (symmetry; apply Z.ltb_lt; lia).
  rewrite Z.sub_0_r, Z.div_1_r, Z.max_l, Nat2Z.id by lia.
  apply list_fmap_ext. intros _ k _. lia.
Qed.

Lemma get_of_nat {A} (l : list A) (i : nat) : get l (Z.of_nat i) = l !! i.
Proof.
  unfold get. replace (Z.of_nat i <? 0)%Z with false by (symmetry; apply Z.ltb_ge; lia).
  by rewrite Nat2Z.id.
Qed.

Lemma forEach_total {A B} (h : A -> B) (f : B -> nat -> option nat)
    (g : A -> nat) (l : list A) (s : nat) :
  (forall a s, a ∈ l -> f (h a) s = Some (s + g a)) ->
  forEach (h <$> l) f s = Some (s + sum_list_with g l).
Proof.
  revert s. induction l as [|a l IH]; intros s H; simpl.
  - f_equal. lia.
  - rewrite H by apply list_elem_of_here.
    rewrite IH by (intros; apply H; by apply list_elem_of_further).
    f_equal. lia.
Qed.

Lemma slice3 {A} (row : list A) (y : nat) :
  y + 3 <= length row ->
  exists a b c,
    slice row (Z.of_nat y) (Z.of_nat y + 3) = [a; b; c]
    /\ row !! y = Some a /\ row !! (y + 1) = Some b /\ row !! (y + 2) = Some c.
Proof.
  intros Hy. unfold slice.
  replace (Z.of_nat y <? 0)%Z with false by (symmetry; apply Z.ltb_ge; lia).
  replace (Z.of_nat y + 3 <? 0)%Z with false by (symmetry; apply Z.ltb_ge; lia).
  rewrite !Z.min_l by lia.
  replace (Z.to_nat (Z.of_nat y + 3 - Z.of_nat y)) with 3 by lia.
  rewrite Nat2Z.id.
  destruct (lookup_lt_is_Some_2 row y) as [a Ha]; [lia |].
  destruct (lookup_lt_is_Some_2 row (y + 1)) as [b Hb]; [lia |].
  destruct (lookup_lt_is_Some_2 row (y + 2)) as [c Hc]; [lia |].
  exists a, b, c. repeat split; try done.
  pose proof (lookup_drop row y 0) as H0.
  pose proof (lookup_drop row y 1) as H1.
  pose proof (lookup_drop row y 2) as H2.
  rewrite Nat.add_0_r, Ha in H0. rewrite Hb in H1. rewrite Hc in H2.
  destruct (drop y row) as [|a' [|b' [|c' rest]]]; try discriminate.
  injection H0 as ->. injection H1 as ->. injection H2 as ->. reflexivity.
Qed.

(** A pattern cannot match inside a string that is too short for it. *)
Lemma matches_at_short (r : list atom) (s : list ascii) :
  length s < length r -> matches_at r s = false.
Proof.
  revert s. induction r as [|a r IH]; intros s H; simpl in *; [lia |].
  destruct s as [|c s]; [done |]. simpl in H. rewrite IH by lia.
  apply andb_false_r.
Qed.

Lemma test_short (r : list atom) (s : list ascii) :
  length s < length r -> test r s = false.
Proof.
  induction s as [|c s IH]; intros H.
  - simpl. rewrite matches_at_short by done. done.
  - change (test r (c :: s)) with (matches_at r (c :: s) || test r s).
    rewrite matches_at_short by done. simpl in H. rewrite IH by lia. done.
Qed.

Lemma test_exact (r : list atom) (s : list ascii) :
  length s = length r -> r <> [] -> test r s = matches_at r s.
Proof.
  intros H Hr. destruct s as [|c s]; [by destruct r |].
  change (test r (c :: s)) with (matches_at r (c :: s) || test r s).
  simpl in H. rewrite test_short by lia. apply orb_false_r.
Qed.

Lemma permutations_templates : permutations = regex_of <$> templates.
Proof. reflexivity. Qed.

(** Inside the grid, the window string has the length of the patterns, so
    a pattern matches somewhere iff it matches the whole window. *)
Lemma section3_window text (m x y : nat) :
  Forall (fun row => length row = m) text ->
  x + 3 <= length text -> y + 3 <= m ->
  exists grid,
    section3 text (Z.of_nat x) (Z.of_nat y) = Some grid
    /\ existsb (fun regex => test regex grid) permutations
       = existsb (window_matches not_line_end text x y) templates.
Proof.
  intros Hrows Hx Hy.
  destruct (lookup_lt_is_Some_2 text x) as [r0 H0]; [lia |].
  destruct (lookup_lt_is_Some_2 text (x + 1)) as [r1 H1]; [lia |].
  destruct (lookup_lt_is_Some_2 text (x + 2)) as [r2 H2]; [lia |].
  pose proof (proj1 (Forall_lookup _ _) Hrows _ _ H0) as L0.
  pose proof (proj1 (Forall_lookup _ _) Hrows _ _ H1) as L1.
  pose proof (proj1 (Forall_lookup _ _) Hrows _ _ H2) as L2.
  simpl in L0, L1, L2.
  destruct (slice3 r0 y) as (a0 & b0 & c0 & S0 & A0 & B0 & C0); [lia |].
  destruct (slice3 r1 y) as (a1 & b1 & c1 & S1 & A1 & B1 & C1); [lia |].
  destruct (slice3 r2 y) as (a2 & b2 & c2 & S2 & A2 & B2 & C2); [lia |].
  unfold section3. cbn [mapM].
  replace (Z.of_nat x + 0)%Z with (Z.of_nat x) by lia.
  replace (Z.of_nat x + 1)%Z with (Z.of_nat (x + 1)) by lia.
  replace (Z.of_nat x + 2)%Z with (Z.of_nat (x + 2)) by lia.
  rewrite !get_of_nat, H0, H1, H2, S0, S1, S2.
  eexists. split; [reflexivity |].
  rewrite permutations_templates. unfold templates.
  cbn [fmap list_fmap existsb].
  rewrite !test_exact by done.
  unfold window_matches, cell.
  rewrite H0, H1, H2, A0, B0, C0, A1, B1, C1, A2, B2, C2.
  cbn. unfold not_line_end. by rewrite ?andb_true_r, ?andb_assoc.
Qed.

Lemma count_in_row {A B} (q : A * B -> bool) (x : A) (ys : list B) :
  length (List.filter q (List.map (pair x) ys))
  = sum_list_with (fun y => if q (x, y) then 1 else 0) ys.
Proof.
  induction ys as [|y ys IH]; simpl; [done |].
  destruct (q (x, y)); simpl; by rewrite IH.
Qed.

Lemma count_in_grid {A B} (q : A * B -> bool) (xs : list A) (ys : list B) :
  sum_list_with (fun x => sum_list_with (fun y => if q (x, y) then 1 else 0) ys) xs
  = length (List.filter q (list_prod xs ys)).
Proof.
  induction xs as [|x xs IH]; simpl; [done |].
  by rewrite List.filter_app, length_app, count_in_row, IH.
Qed.

(** C4, as amended: for a square grid of size at least 2,
    [part2Solution] returns the number of 3x3 windows that match one of
    the four templates, where a wildcard position accepts any character
    that is not a line terminator. *)
Theorem day4_part2_windows (input : list ascii) :
  let text := split newline input in
  2 <= length text ->
  Forall (fun row => length row = length text) text ->
  part2Solution input = Some (count_windows not_line_end text (length text)).
Proof.
  intros text Hn Hrows. unfold part2Solution. fold text.
  replace (Z.of_nat (length text) - 2)%Z with (Z.of_nat (length text - 2)) by lia.
  rewrite range_of_nat.
  set (q := fun p : nat * nat =>
              existsb (window_matches not_line_end text p.1 p.2) templates).
  rewrite (forEach_total Z.of_nat _
             (fun x => sum_list_with (fun y => if q (x, y) then 1 else 0)
                         (seq 0 (length text - 2)))).
  - by rewrite count_in_grid.
  - intros x s Hx. apply elem_of_seq in Hx.
    apply forEach_total. intros y s' Hy. apply elem_of_seq in Hy.
    destruct (section3_window text (length text) x y) as (grid & -> & ->);
      [done | lia | lia |].
    unfold q. cbn [fst snd].
    match goal with |- context [if ?b then _ else _] => destruct b end;
      f_equal; lia.
Qed.

Lemma day4_part2_windows_witness :
  2 <= length (split newline example)
  /\ part2Solution example
     = Some (count_windows not_line_end (split newline example) 10).
Proof.
  assert (2 <= length (split newline example)) as H by (vm_compute; lia).
  split; [exact H |].
  apply (day4_part2_windows example H). vm_compute. repeat constructor.
Defined.

(** C4, as stated, fails: with wildcards that accept every character the
    only window of [cr_grid] matches the first template, but the [.] of
    the regular expression rejects the carriage return and
    [part2Solution] returns 0. *)
Lemma day4_part2_any_char_counterexample :
  ~ (forall input : list ascii,
        let text := split newline input in
        Forall (fun row => length row = length text) text ->
        part2Solution input = Some (count_windows any_char text (length text))).
Proof.
  intros H. specialize (H cr_grid). simpl in H.
  assert (part2Solution cr_grid = Some 0) as E by (vm_compute; reflexivity).
  rewrite E in H. discriminate H. vm_compute. repeat constructor.
Qed.

End Windows.

(** ** Day 5: the two filters *)
Section Orders.
Import Day5.
Implicit Types (rules : list (Z * Z)) (orders : list (list Z)) (pages : list Z).

Lemma slice_init pages : slice pages 0 (-1) = take (length pages - 1) pages.
Proof.
  unfold slice. change (0 <? 0)%Z with false. change (-1 <? 0)%Z with true.
  cbv iota. rewrite Z.min_l by lia. rewrite drop_0. f_equal. lia.
Qed.

Lemma no_rule_spec (m : gmap Z (list Z)) (b a : Z) :
  no_rule m b a = true
  <-> m !! b = None \/ exists after, m !! b = Some after /\ a ∉ after.
Proof.
  unfold no_rule. destruct (m !! b) as [after|]; [| by split; [left |]].
  rewrite negb_true_iff, bool_decide_eq_false. split.
  - intros H. right. by exists after.
  - intros [H | (after' & H & Ha)]; [done | by injection H as ->].
Qed.

(** The filter of [part1Solution] looks at neighbours only. *)
Lemma in_order_spec (m : gmap Z (list Z)) pages :
  in_order m pages = true
  <-> forall (i : nat) (p q : Z),
      pages !! i = Some p -> pages !! (i + 1) = Some q -> no_rule m q p = true.
Proof.
  unfold in_order. rewrite slice_init.
  rewrite <- Is_true_true, forallb_True, Forall_lookup. split.
  - intros H i p q Hp Hq.
    assert (i + 1 < length pages) as Hi by (by eapply lookup_lt_Some).
    assert (pair_ok m pages i p = no_rule m q p) as E
      by (unfold pair_ok; by rewrite Hq).
    rewrite <- E. apply Is_true_true, (H i (pair_ok m pages i p)).
    by rewrite list_lookup_imap, lookup_take_lt, Hp by lia.
  - intros H i b Hb. rewrite list_lookup_imap in Hb.
    destruct (take (length pages - 1) pages !! i) as [p|] eqn:Hp; [| done].
    injection Hb as <-. apply lookup_take_Some in Hp as [Hp Hi].
    unfold pair_ok, id. destruct (pages !! (i + 1)) as [q|] eqn:Hq; [| done].
    apply Is_true_true. by eapply H.
Qed.

Lemma rule_map_snoc rules (r : Z * Z) :
  rule_map (rules ++ [r]) = add_rule (rule_map rules) r.
Proof. unfold rule_map. by rewrite foldl_app. Qed.

(** The rule object lists under [b] the pages that [b] must precede. *)
Lemma rule_map_spec rules (b a : Z) :
  (exists after, rule_map rules !! b = Some after /\ a ∈ after)
  <-> (b, a) ∈ rules.
Proof.
  induction rules as [|[b' a'] rules IH] using rev_ind.
  - split; [intros (after & H & _); unfold rule_map in H; simpl in H;
            by rewrite lookup_empty in H |].
    intros H. by apply not_elem_of_nil in H.
  - rewrite rule_map_snoc, elem_of_app, list_elem_of_singleton, <- IH.
    unfold add_rule. simpl. destruct (decide (b' = b)) as [->|Hne].
    + rewrite lookup_insert_eq. split.
      * intros (after & H & Ha). injection H as <-.
        apply elem_of_app in Ha as [Ha | Ha].
        -- left. destruct (rule_map rules !! b) as [l|]; [by exists l |].
           by apply not_elem_of_nil in Ha.
        -- right. apply list_elem_of_singleton in Ha. by subst.
      * intros [(after & H & Ha) | H]; eexists; (split; [done |]).
        -- rewrite H. simpl. apply elem_of_app. by left.
        -- injection H as <-. apply elem_of_app. right. by apply list_elem_of_singleton.
    + rewrite lookup_insert_ne by done. split; [by left |].
      intros [H | H]; [done | by injection H as <- <-].
Qed.

Lemma elem_of_kept1 rules orders pages :
  pages ∈ kept1 rules orders
  <-> pages ∈ orders /\ in_order (rule_map rules) pages = true.
Proof. unfold kept1. by rewrite !list_elem_of_In, List.filter_In. Qed.

Lemma elem_of_kept2 rules orders pages :
  pages ∈ kept2 rules orders
  <-> pages ∈ orders /\ in_order (rule_map rules) pages = false.
Proof.
  unfold kept2. by rewrite !list_elem_of_In, List.filter_In, negb_true_iff.
Qed.



End Orders.

(** The rules and orders of the example of day 5, parsed. *)
Example day5_part1_example :
Day5.part1Solution
  [ (47, 53); (97, 13); (97, 61); (97, 47); (75, 29); (61, 13); (75, 53);
    (29, 13); (97, 29); (53, 29); (61, 53); (97, 53); (61, 29); (47, 13);
    (75, 47); (97, 75); (47, 61); (75, 61); (47, 29); (75, 13); (53, 13) ]%Z
  [ [75; 47; 61; 53; 29]; [97; 61; 53; 29; 13]; [75; 29; 13];
    [75; 97; 47; 61; 53]; [61; 13; 29]; [97; 13; 75; 29; 47] ]%Z
= Some 143%Z.
Proof. vm_compute. reflexivity. Qed.


(** ** Day 5: further properties of the rule object and of the filters *)
Section OrdersMore.
Import Day5 Spec.
Implicit Types (rules : list (Z * Z)) (orders : list (list Z)) (pages : list Z).

(** The entry of the rule object for [b] lists, in input order and with
    repetitions, the second components of the rules whose first component
    is [b]; a page that starts no rule has no entry. *)
Theorem day5_rule_map_lookup rules (b : Z) :
  rule_map rules !! b
  = match snd <$> List.filter (fun r => bool_decide (r.1 = b)) rules with
    | [] => None
    | a :: after => Some (a :: after)
    end.
Proof.
  induction rules as [|[b' a'] rules IH] using rev_ind; [done |].
  rewrite rule_map_snoc, List.filter_app, fmap_app. unfold add_rule.
  cbn [fst snd List.filter]. destruct (decide (b' = b)) as [->|Hne].
  - rewrite lookup_insert_eq, IH, bool_decide_eq_true_2 by done.
    by destruct (snd <$> List.filter _ rules).
  - rewrite lookup_insert_ne, IH, bool_decide_eq_false_2 by done.
    by rewrite app_nil_r.
Qed.

Lemma no_rule_rules rules (b a : Z) :
  no_rule (rule_map rules) b a = true <-> (b, a) ∉ rules.
Proof.
  rewrite <- rule_map_spec, no_rule_spec. split.
  - intros [H | (after & H & Ha)] (after' & H' & Ha'); [congruence |].
    rewrite H in H'. by injection H' as <-.
  - intros H. destruct (rule_map rules !! b) as [after|] eqn:E; [| by left].
    right. exists after. split; [done |]. intros Ha. apply H. by exists after.
Qed.

Lemma in_order_rules rules pages :
  in_order (rule_map rules) pages = true
  <-> forall (i : nat) (p q : Z),
      pages !! i = Some p -> pages !! (i + 1) = Some q -> (q, p) ∉ rules.
Proof.
  rewrite in_order_spec. split; intros H i p q Hp Hq;
    apply no_rule_rules; by eapply H.
Qed.

(** When the rules order the pages of a list strictly and totally, the
    check of neighbours decides the whole list: it succeeds exactly when no
    rule at all is violated by two pages of the list. *)
Theorem day5_adjacent_check_suffices rules pages :
  (forall a b c, a ∈ pages -> b ∈ pages -> c ∈ pages ->
                 (a, b) ∈ rules -> (b, c) ∈ rules -> (a, c) ∈ rules) ->
  (forall a b, a ∈ pages -> b ∈ pages -> (a, b) ∈ rules -> (b, a) ∉ rules) ->
  (forall a b, a ∈ pages -> b ∈ pages -> a <> b ->
               (a, b) ∈ rules \/ (b, a) ∈ rules) ->
  in_order (rule_map rules) pages = true
  <-> forall (i j : nat) (p q : Z),
      i < j -> pages !! i = Some p -> pages !! j = Some q -> (q, p) ∉ rules.
Proof.
  intros Htrans Hasym Htotal. rewrite in_order_rules. split.
  - intros Hadj.
    assert (forall (d i : nat) (p q : Z),
               pages !! i = Some p -> pages !! (i + S d) = Some q ->
               p = q \/ (p, q) ∈ rules) as Hchain.
    { induction d as [|d IHd]; intros i p q Hp Hq.
      - destruct (decide (p = q)) as [|Hne]; [by left | right].
        destruct (Htotal p q) as [H | H]; try done.
        + by eapply list_elem_of_lookup_2.
        + by eapply list_elem_of_lookup_2.
        + exfalso. by eapply (Hadj i p q).
      - destruct (lookup_lt_is_Some_2 pages (i + S d)) as [r Hr].
        { apply lookup_lt_Some in Hq. lia. }
        replace (i + S (S d)) with ((i + S d) + 1) in Hq by lia.
        pose proof (list_elem_of_lookup_2 _ _ _ Hp) as Ip.
        pose proof (list_elem_of_lookup_2 _ _ _ Hr) as Ir.
        pose proof (list_elem_of_lookup_2 _ _ _ Hq) as Iq.
        destruct (IHd i p r Hp Hr) as [-> | Hpr].
        + destruct (decide (r = q)) as [|Hne]; [by left | right].
          destruct (Htotal r q) as [H | H]; try done.
          exfalso. by eapply (Hadj (i + S d) r q).
        + destruct (decide (r = q)) as [<-|Hne]; [by right | right].
          destruct (Htotal r q) as [H | H]; try done.
          * by eapply (Htrans p r q).
          * exfalso. by eapply (Hadj (i + S d) r q). }
    intros i j p q Hij Hp Hq.
    pose proof (list_elem_of_lookup_2 _ _ _ Hp) as Ip.
    pose proof (list_elem_of_lookup_2 _ _ _ Hq) as Iq.
    replace j with (i + S (j - i - 1)) in Hq by lia.
    destruct (Hchain _ _ _ _ Hp Hq) as [-> | H].
    + intros H. by eapply (Hasym q q).
    + by apply Hasym.
  - intros H i p q Hp Hq. apply (H i (i + 1)); [lia | done | done].
Qed.

Lemma day5_adjacent_check_suffices_witness :
  let rules := [(1, 2); (2, 3); (1, 3)]%Z in
  let pages := [1; 2; 3]%Z in
  in_order (rule_map rules) pages = true
  <-> forall (i j : nat) (p q : Z),
      i < j -> pages !! i = Some p -> pages !! j = Some q -> (q, p) ∉ rules.
Proof.
  intros rules pages. apply day5_adjacent_check_suffices.
  - intros a b c _ _ _. unfold rules.
    rewrite !elem_of_cons, !elem_of_nil. intros Hab Hbc.
    destruct Hab as [Hab | [Hab | [Hab | []]]]; injection Hab as -> ->;
      destruct Hbc as [Hbc | [Hbc | [Hbc | []]]]; try discriminate Hbc;
      injection Hbc as <-; auto.
  - intros a b _ _. unfold rules.
    rewrite !elem_of_cons, !elem_of_nil. intros Hab Hba.
    destruct Hab as [Hab | [Hab | [Hab | []]]]; injection Hab as -> ->;
      destruct Hba as [Hba | [Hba | [Hba | []]]]; discriminate Hba.
  - intros a b. unfold rules, pages.
    rewrite !elem_of_cons, !elem_of_nil.
    intros [-> | [-> | [-> | []]]] [-> | [-> | [-> | []]]] Hne;
      try (by destruct Hne); auto 10.
Defined.

(** A list with fewer than two pages passes the check of [part1Solution]
    whatever the rules are, so it is never re-sorted by [part2Solution]. *)
Theorem day5_short_list_kept rules orders pages :
  length pages <= 1 ->
  pages ∈ orders ->
  pages ∈ kept1 rules orders /\ pages ∉ kept2 rules orders.
Proof.
  intros Hlen Hin.
  assert (in_order (rule_map rules) pages = true) as H.
  { apply in_order_spec. intros i p q Hp Hq.
    apply lookup_lt_Some in Hq. lia. }
  rewrite elem_of_kept1, elem_of_kept2. split; [done |].
  intros [_ H']. congruence.
Qed.

Lemma day5_short_list_kept_witness :
  length [7%Z] <= 1 /\ [7%Z] ∈ [[7%Z]]
  /\ [7%Z] ∈ kept1 [(7, 7)%Z] [[7%Z]] /\ [7%Z] ∉ kept2 [(7, 7)%Z] [[7%Z]].
Proof.
  assert (length [7%Z] <= 1) as H1 by (simpl; lia).
  assert ([7%Z] ∈ [[7%Z]]) as H2 by apply list_elem_of_here.
  split; [exact H1 |]. split; [exact H2 |].
  exact (day5_short_list_kept [(7, 7)%Z] [[7%Z]] [7%Z] H1 H2).
Defined.

(** The comparator handed to [sort] never answers 0; it answers -1, which
    places [a] before [b], exactly when a rule says that [b] comes before
    [a], and 1 in every other case, also for [a = b]. *)
Theorem day5_compare_pages_rules rules (a b : Z) :
  (compare_pages (rule_map rules) a b = (-1)%Z <-> (b, a) ∈ rules)
  /\ (compare_pages (rule_map rules) a b = 1%Z <-> (b, a) ∉ rules)
  /\ compare_pages (rule_map rules) a b <> 0%Z.
Proof.
  unfold compare_pages.
  destruct (no_rule (rule_map rules) b a) eqn:E.
  - apply no_rule_rules in E. repeat split; try done.
  - assert ((b, a) ∈ rules) as H.
    { destruct (decide ((b, a) ∈ rules)) as [|Hn]; [done |].
      apply no_rule_rules in Hn. congruence. }
    repeat split; try done; intros Hn; by destruct Hn.
Qed.











(** Above [2^53] the additions round, and the order of the order lists
    shows in the result. *)
Example day5_part1_rounding :
  part1Solution [(1, 2)%Z] [[9007199254740992]; [1]; [1]]%Z
  = Some 9007199254740992%Z
  /\ part1Solution [(1, 2)%Z] [[1]; [1]; [9007199254740992]]%Z
     = Some 9007199254740994%Z.
Proof. split; vm_compute; reflexivity. Qed.

(** Only the set of rules matters to [part1Solution]: two rule lists with
    the same members, in any order and with any repetitions, give the same
    result. *)
Theorem day5_part1_rules_as_set rules rules' orders :
  (forall r, r ∈ rules <-> r ∈ rules') ->
  part1Solution rules orders = part1Solution rules' orders.
Proof.
  intros Hset.
  assert (forall pages,
             in_order (rule_map rules) pages = in_order (rule_map rules') pages) as E.
  { intros pages.
    destruct (in_order (rule_map rules) pages) eqn:E1;
      destruct (in_order (rule_map rules') pages) eqn:E2; try done.
    - pose proof (proj1 (in_order_rules _ _) E1) as H1.
      assert (in_order (rule_map rules') pages = true) as E3; [| congruence].
      apply in_order_rules. intros i p q Hp Hq Hr.
      apply (H1 i p q Hp Hq). by apply Hset.
    - pose proof (proj1 (in_order_rules _ _) E2) as H2.
      assert (in_order (rule_map rules) pages = true) as E3; [| congruence].
      apply in_order_rules. intros i p q Hp Hq Hr.
      apply (H2 i p q Hp Hq). by apply Hset. }
  unfold part1Solution, kept1. f_equal. f_equal. by apply List.filter_ext.
Qed.

Lemma day5_part1_rules_as_set_witness :
  (forall r, r ∈ [(1, 2); (3, 4)]%Z <-> r ∈ [(3, 4); (1, 2); (3, 4)]%Z)
  /\ part1Solution [(1, 2); (3, 4)]%Z [[2; 1; 5]]%Z
     = part1Solution [(3, 4); (1, 2); (3, 4)]%Z [[2; 1; 5]]%Z.
Proof.
  assert (forall r, r ∈ [(1, 2); (3, 4)]%Z <-> r ∈ [(3, 4); (1, 2); (3, 4)]%Z) as H.
  { intros r. rewrite !elem_of_cons, !elem_of_nil. tauto. }
  split; [exact H | exact (day5_part1_rules_as_set _ _ _ H)].
Defined.

End OrdersMore.


(** ** Day 4: further properties of the parsing, the lines and the windows *)
Section GridMore.
Import Day4 Spec.
Implicit Types (text : list (list ascii)) (input line : list ascii).

Lemma split_cons_eq (sep c : ascii) (s : list ascii) :
  split sep (c :: s)
  = if Ascii.eqb c sep then [] :: split sep s
    else match split sep s with
         | r :: rs => (c :: r) :: rs
         | [] => [[c]]
         end.
Proof. reflexivity. Qed.

Lemma split_nonempty (sep : ascii) (s : list ascii) : split sep s <> [].
Proof.
  destruct s as [|c s]; [done |]. rewrite split_cons_eq.
  destruct (Ascii.eqb c sep); [done |]. by destruct (split sep s).
Qed.

(** [input.split('\n')] loses nothing: there is always at least one row,
    one more than there are newlines, no row contains a newline, and
    joining the rows with newlines gives the input back. *)
Theorem day4_split_rows input :
  let text := split newline input in
  length text = S (length (List.filter (fun c => Ascii.eqb c newline) input))
  /\ Forall (fun row => newline ∉ row) text
  /\ join [newline] text = input.
Proof.
  induction input as [|c s IH]; cbv zeta in *.
  - repeat split. constructor; [apply not_elem_of_nil | constructor].
  - destruct IH as (Hlen & Hrows & Hjoin).
    pose proof (split_nonempty newline s) as Hne.
    rewrite split_cons_eq. cbn [List.filter].
    destruct (Ascii.eqb c newline) eqn:E.
    + apply Ascii.eqb_eq in E as ->. cbn [length]. rewrite Hlen. repeat split.
      * constructor; [apply not_elem_of_nil | done].
      * destruct (split newline s) as [|r rs]; [done |].
        change (join [newline] ([] :: r :: rs))
          with (newline :: join [newline] (r :: rs)).
        by rewrite Hjoin.
    + destruct (split newline s) as [|r rs]; [done |].
      apply Forall_cons in Hrows as [Hr Hrs]. repeat split; try done.
      * constructor; [| done]. rewrite elem_of_cons. intros [Hc | H]; [| done].
        rewrite <- Hc in E. by rewrite Ascii.eqb_refl in E.
      * rewrite <- Hjoin. by destruct rs.
Qed.

(** Parsing what [join] produced gives the rows back, when there is a row
    and no row contains a newline. *)
Theorem day4_split_join text :
  text <> [] ->
  Forall (fun row => newline ∉ row) text ->
  split newline (join [newline] text) = text.
Proof.
  intros Hne Hrows. induction Hrows as [|row text Hrow Hrows IH]; [done |].
  clear Hne. induction row as [|c row IHrow].
  - destruct text as [|row' text]; [done |].
    change (join [newline] ([] :: row' :: text))
      with (newline :: join [newline] (row' :: text)).
    rewrite split_cons_eq, Ascii.eqb_refl, IH by done. done.
  - assert (Ascii.eqb c newline = false) as E.
    { apply Ascii.eqb_neq. intros ->. apply Hrow, list_elem_of_here. }
    assert (join [newline] ((c :: row) :: text)
            = c :: join [newline] (row :: text)) as -> by (by destruct text).
    rewrite split_cons_eq, E, IHrow; [done |].
    intros H. apply Hrow. by apply list_elem_of_further.
Qed.

Lemma day4_split_join_witness :
  let text := [list_ascii_of_string "XM"; list_ascii_of_string "AS"] in
  text <> [] /\ Forall (fun row => newline ∉ row) text
  /\ split newline (join [newline] text) = text.
Proof.
  intros text.
  assert (text <> []) as H1 by discriminate.
  assert (Forall (fun row => newline ∉ row) text) as H2.
  { apply (bool_decide_unpack _). vm_compute. exact I. }
  split; [exact H1 |]. split; [exact H2 |]. exact (day4_split_join text H1 H2).
Defined.

Lemma line_count_reverse line :
  line_count (reverse line) = line_count line.
Proof.
  unfold line_count.
  assert (XMAS = reverse SAMX) as E1 by reflexivity.
  assert (SAMX = reverse XMAS) as E2 by reflexivity.
  rewrite E1 at 1. rewrite match_count_reverse.
  rewrite E2 at 2. rewrite match_count_reverse. lia.
Qed.

(** A line and its mirror image contribute the same count: what is found
    as [XMAS] in one is found as [SAMX] in the other. *)
Theorem day4_line_count_reverse line :
  line_count (reverse line) = line_count line
  /\ match_count XMAS (reverse line) = match_count SAMX line
  /\ match_count SAMX (reverse line) = match_count XMAS line.
Proof.
  split; [apply line_count_reverse |].
  assert (XMAS = reverse SAMX) as E1 by reflexivity.
  assert (SAMX = reverse XMAS) as E2 by reflexivity.
  split.
  - rewrite E1. apply match_count_reverse.
  - rewrite E2. apply match_count_reverse.
Qed.

Lemma omap_reverse {A B} (f : A -> option B) (l : list A) :
  omap f (reverse l) = reverse (omap f l).
Proof.
  induction l as [|a l IH]; [done |].
  rewrite reverse_cons, omap_app, IH. simpl.
  destruct (f a); simpl; [by rewrite reverse_cons | by rewrite app_nil_r].
Qed.

(** The columns of the vertically mirrored grid are the mirrored columns;
    this holds for ragged grids too. *)
Lemma transposed_reverse text :
  transposed (reverse text) = reverse <$> transposed text.
Proof.
  unfold transposed, unzip.
  rewrite fmap_reverse, max_list_with_reverse, <- !list_fmap_compose.
  apply list_fmap_ext. intros _ j _. simpl. unfold join_chars.
  by rewrite fmap_reverse, omap_reverse.
Qed.

Lemma char_at_reverse text (x y : Z) :
  (0 <= x < Z.of_nat (length text))%Z ->
  char_at text (Z.of_nat (length text) - x - 1) y = char_at (reverse text) x y.
Proof.
  intros Hx. unfold char_at, get.
  replace (Z.of_nat (length text) - x - 1 <? 0)%Z with false
    by (symmetry; apply Z.ltb_ge; lia).
  replace (x <? 0)%Z with false by (symmetry; apply Z.ltb_ge; lia).
  rewrite reverse_lookup by lia.
  by replace (Z.to_nat (Z.of_nat (length text) - x - 1))
    with (length text - S (Z.to_nat x)) by lia.
Qed.

(** The second family of diagonals is the first family of the vertically
    mirrored grid. *)
Lemma diag2_mirror text : diag2 text = diag1 (reverse text).
Proof.
  unfold diag1, diag2. rewrite length_reverse.
  apply list_fmap_ext. intros _ i _. f_equal.
  apply list_fmap_ext. intros k p Hp.
  apply list_elem_of_lookup_2, list_elem_of_In, List.filter_In in Hp as [_ Hp].
  destruct p as [[x|] [y|]]; try done. simpl in Hp.
  apply char_at_reverse.
  repeat (apply andb_true_iff in Hp as [Hp ?]). lia.
Qed.

Lemma sum_line_count_reverse (ls : list (list ascii)) :
  sum_list_with line_count (reverse <$> ls) = sum_list_with line_count ls.
Proof.
  induction ls as [|l ls IH]; [done |].
  rewrite fmap_cons. simpl. by rewrite IH, line_count_reverse.
Qed.

(** Turning the grid upside down does not change the answer of
    [part1Solution]: rows are kept, columns are mirrored and the two
    families of diagonals change places. *)
Theorem day4_part1_upside_down input input' :
  split newline input' = reverse (split newline input) ->
  part1Solution input' = part1Solution input.
Proof.
  intros H. rewrite !part1Solution_sum, H. unfold lines. simpl.
  rewrite !app_nil_r, !sum_list_with_app.
  rewrite transposed_reverse, sum_line_count_reverse.
  rewrite sum_list_with_reverse.
  rewrite (diag2_mirror (reverse (split newline input))), reverse_involutive.
  rewrite (diag2_mirror (split newline input)). lia.
Qed.

Lemma day4_part1_upside_down_witness :
  let input := list_ascii_of_string "XMAS
MMXX
AXAX
SXXS" in
  let input' := list_ascii_of_string "SXXS
AXAX
MMXX
XMAS" in
  split newline input' = reverse (split newline input)
  /\ part1Solution input' = part1Solution input
  /\ part1Solution input = 3.
Proof.
  intros input input'.
  assert (split newline input' = reverse (split newline input)) as H
    by reflexivity.
  split; [exact H |].
  split; [exact (day4_part1_upside_down input input' H) | reflexivity].
Defined.

(** The columns read the grid from top to bottom: in a rectangular grid,
    character [i] of column [j] is character [j] of row [i], and there is
    nothing else in the columns. *)
Theorem day4_transposed_cell text (m i j : nat) :
  Forall (fun row => length row = m) text ->
  cell (transposed text) j i = cell text i j.
Proof.
  intros H. unfold cell.
  destruct (decide (text = [])) as [->|Hne]; [by rewrite !lookup_nil |].
  rewrite (transposed_lookup text m) by done.
  destruct (decide (j < m)) as [Hj|Hj].
  - apply column_lookup. eapply Forall_impl; [exact H |]. simpl. intros; lia.
  - destruct (text !! i) as [row|] eqn:Hrow; [| done].
    symmetry. apply lookup_ge_None.
    rewrite (proj1 (Forall_lookup _ _) H _ _ Hrow). lia.
Qed.

Lemma day4_transposed_cell_witness :
  let text := split newline example in
  Forall (fun row => length row = 10) text
  /\ cell (transposed text) 3 0 = cell text 0 3
  /\ cell text 0 3 = Some "S"%char.
Proof.
  intros text.
  assert (Forall (fun row => length row = 10) text) as H
    by (apply (bool_decide_unpack _); vm_compute; exact I).
  split; [exact H |].
  split; [exact (day4_transposed_cell text 10 0 3 H) | reflexivity].
Defined.

Lemma section3_is_Some text (x : nat) (y : Z) :
  x + 3 <= length text -> is_Some (section3 text (Z.of_nat x) y).
Proof.
  intros Hx.
  destruct (lookup_lt_is_Some_2 text x) as [r0 H0]; [lia |].
  destruct (lookup_lt_is_Some_2 text (x + 1)) as [r1 H1]; [lia |].
  destruct (lookup_lt_is_Some_2 text (x + 2)) as [r2 H2]; [lia |].
  unfold section3. cbn [mapM].
  replace (Z.of_nat x + 0)%Z with (Z.of_nat x) by lia.
  replace (Z.of_nat x + 1)%Z with (Z.of_nat (x + 1)) by lia.
  replace (Z.of_nat x + 2)%Z with (Z.of_nat (x + 2)) by lia.
  rewrite !get_of_nat, H0, H1, H2. by eexists.
Qed.

Lemma forEach_bound {A B} (h : A -> B) (f : B -> nat -> option nat)
    (k : nat) (l : list A) (s : nat) :
  (forall a s, a ∈ l -> exists s', f (h a) s = Some s' /\ s' <= s + k) ->
  exists s', forEach (h <$> l) f s = Some s' /\ s' <= s + k * length l.
Proof.
  revert s. induction l as [|a l IH]; intros s H.
  - exists s. split; [done | lia].
  - destruct (H a s) as (s1 & E1 & L1); [apply list_elem_of_here |].
    destruct (IH s1) as (s2 & E2 & L2).
    { intros; apply H. by apply list_elem_of_further. }
    exists s2. rewrite fmap_cons. cbn [forEach]. rewrite E1.
    split; [done |]. simpl. lia.
Qed.

(** [part2Solution] throws exactly on the inputs that have a single line;
    on every other input, square or not, it returns a count that is at most
    the number of window positions. *)
Theorem day4_part2_result input :
  let n := length (split newline input) in
  (part2Solution input = None <-> n = 1)
  /\ (forall c, part2Solution input = Some c -> c <= (n - 2) * (n - 2)).
Proof.
  intros n.
  assert (n = 1 -> part2Solution input = None) as Hone.
  { unfold n, part2Solution. intros H.
    destruct (split newline input) as [|row [|row' text]]; try discriminate H.
    reflexivity. }
  assert (n <> 1 -> exists c, part2Solution input = Some c
                             /\ c <= (n - 2) * (n - 2)) as Hmore.
  { intros H. pose proof (split_nonempty newline input) as Hne.
    assert (2 <= n) as Hn by (unfold n in *; destruct (split newline input); simpl in *; [done | lia]).
    unfold part2Solution. fold n.
    replace (Z.of_nat n - 2)%Z with (Z.of_nat (n - 2)) by lia.
    rewrite range_of_nat.
    destruct (forEach_bound Z.of_nat
                (fun x count =>
                   forEach (Z.of_nat <$> seq 0 (n - 2))
                     (fun y count =>
                        match section3 (split newline input) x y with
                        | Some grid =>
                            Some (if existsb (fun regex => test regex grid) permutations
                                  then S count else count)
                        | None => None
                        end) count)
                (n - 2) (seq 0 (n - 2)) 0) as (c & E & L).
    - intros x s Hx. apply elem_of_seq in Hx.
      destruct (forEach_bound Z.of_nat
                  (fun y count =>
                     match section3 (split newline input) (Z.of_nat x) y with
                     | Some grid =>
                         Some (if existsb (fun regex => test regex grid) permutations
                               then S count else count)
                     | None => None
                     end)
                  1 (seq 0 (n - 2)) s) as (c & E & L).
      + intros y s' Hy.
        destruct (section3_is_Some (split newline input) x (Z.of_nat y))
          as [grid ->]; [fold n; lia |].
        eexists. split; [done |].
        destruct (existsb _ permutations); lia.
      + exists c. split; [done |]. rewrite length_seq in L. lia.
    - exists c. split; [done |]. rewrite length_seq in L. lia. }
  split.
  - split; [| done]. intros E. destruct (decide (n = 1)) as [|Hn]; [done |].
    destruct (Hmore Hn) as (c & E' & _). congruence.
  - intros c E. destruct (decide (n = 1)) as [Hn|Hn].
    + rewrite (Hone Hn) in E. discriminate E.
    + destruct (Hmore Hn) as (c' & E' & L). congruence.
Qed.

Lemma zip_range (i : nat) :
  zip (range (Z.of_nat i + 1)) (rangeRight (Z.of_nat i + 1))
  = (fun k => (Some (Z.of_nat k), Some (Z.of_nat (i - k)))) <$> seq 0 (S i).
Proof.
  unfold zip, rangeRight.
  replace (Z.of_nat i + 1)%Z with (Z.of_nat (S i)) by lia.
  rewrite range_of_nat, length_reverse, length_fmap, length_seq, Nat.max_id.
  apply list_fmap_ext. intros idx k Hk.
  apply list_elem_of_lookup_2, elem_of_seq in Hk.
  rewrite reverse_lookup by (rewrite length_fmap, length_seq; lia).
  rewrite length_fmap, length_seq, !list_lookup_fmap, !lookup_seq_lt by lia.
  simpl. repeat f_equal; lia.
Qed.

Lemma filter_fmap {A B} (f : A -> B) (P : B -> bool) (l : list A) :
  List.filter P (f <$> l) = f <$> List.filter (fun a => P (f a)) l.
Proof.
  induction l as [|a l IH]; [done |].
  rewrite fmap_cons. cbn [List.filter]. destruct (P (f a)); by rewrite IH.
Qed.

Lemma filter_seq_interval (lo hi m : nat) :
  List.filter (fun k => (lo <=? k) && (k <? hi)) (seq 0 m)
  = seq lo (Nat.min hi m - lo).
Proof.
  induction m as [|m IH]; [by rewrite Nat.min_0_r |].
  rewrite seq_S, List.filter_app, IH. cbn [List.filter Nat.add].
  destruct (Nat.leb_spec lo m) as [H1|H1];
    destruct (Nat.ltb_spec m hi) as [H2|H2]; cbn [andb].
  - replace (Nat.min hi (S m) - lo) with (S (Nat.min hi m - lo)) by lia.
    rewrite seq_S. do 2 f_equal. lia.
  - rewrite app_nil_r. f_equal. lia.
  - rewrite app_nil_r. f_equal. lia.
  - rewrite app_nil_r. f_equal. lia.
Qed.

(** Line [i] of the diagonal extraction visits the cells [(k, i-k)] of the
    grid, from the smallest [k] that keeps [i-k] inside the grid to the
    largest [k] that is itself inside. *)
Lemma diag_cells_seq (n i : nat) :
  diag_cells (Z.of_nat n) i
  = (fun k => (Some (Z.of_nat k), Some (Z.of_nat (i - k))))
      <$> seq (i + 1 - n) (Nat.min (i + 1) n - (i + 1 - n)).
Proof.
  unfold diag_cells. rewrite zip_range, filter_fmap. f_equal.
  rewrite (Nat.min_comm (i + 1) n). replace (i + 1) with (S i) by lia.
  rewrite <- (filter_seq_interval (S i - n) n (S i)).
  apply List.filter_ext_in. intros k Hk.
  apply List.in_seq in Hk. unfold in_grid.
  destruct (Nat.leb_spec (S i - n) k); destruct (Nat.ltb_spec k n);
    destruct (Z.leb_spec 0 (Z.of_nat k));
    destruct (Z.ltb_spec (Z.of_nat k) (Z.of_nat n));
    destruct (Z.leb_spec 0 (Z.of_nat (i - k)));
    destruct (Z.ltb_spec (Z.of_nat (i - k)) (Z.of_nat n));
    simpl; try reflexivity; lia.
Qed.

Lemma join_chars_lookup {A} (h : A -> option ascii) (l : list A) :
  (forall a, a ∈ l -> is_Some (h a)) ->
  length (join_chars (h <$> l)) = length l
  /\ forall k, join_chars (h <$> l) !! k = l !! k ≫= h.
Proof.
  induction l as [|a l IH]; intros H; [done |].
  destruct (H a) as [c Hc]; [apply list_elem_of_here |].
  destruct IH as [IH1 IH2]; [intros; apply H; by apply list_elem_of_further |].
  rewrite fmap_cons, Hc, join_chars_Some. split; [simpl; by rewrite IH1 |].
  intros [|k]; simpl; [done | apply IH2].
Qed.

Lemma char_at_cell text (x y : nat) :
  char_at text (Z.of_nat x) (Z.of_nat y) = cell text x y.
Proof.
  unfold char_at, cell. rewrite get_of_nat.
  destruct (text !! x); [apply get_of_nat | done].
Qed.

(** In a square grid of size [n], line [i] of [diag1] has
    [min (i+1) (2n-1-i)] characters (1 at the corners, [n] in the middle),
    and its character [k] is the one in row [lo + k] and column
    [i - (lo + k)], where [lo] is [i + 1 - n] cut off at 0. *)
Lemma diag1_line text (n i : nat) :
  length text = n ->
  Forall (fun row => length row = n) text ->
  i < 2 * n - 1 ->
  exists line,
    diag1 text !! i = Some line
    /\ length line = Nat.min (i + 1) (2 * n - 1 - i)
    /\ forall k, k < length line ->
                 line !! k = cell text (i + 1 - n + k) (i - (i + 1 - n + k)).
Proof.
  intros Hn Hrows Hi. unfold diag1. rewrite Hn.
  rewrite list_lookup_fmap, lookup_seq_lt by lia. simpl.
  eexists. split; [reflexivity |].
  rewrite diag_cells_seq, <- list_fmap_compose.
  destruct (join_chars_lookup
              (fun k => char_at text (Z.of_nat k) (Z.of_nat (i - k)))
              (seq (i + 1 - n) (Nat.min (i + 1) n - (i + 1 - n)))) as [Hlen Hlook].
  { intros k Hk. apply elem_of_seq in Hk. rewrite char_at_cell. unfold cell.
    destruct (lookup_lt_is_Some_2 text k) as [row Hrow]; [lia |].
    rewrite Hrow. apply lookup_lt_is_Some_2.
    rewrite (proj1 (Forall_lookup _ _) Hrows _ _ Hrow). lia. }
  unfold compose. rewrite Hlen, length_seq. split; [lia |].
  intros k Hk. rewrite Hlook, lookup_seq_lt by lia. simpl.
  apply char_at_cell.
Qed.

Lemma cell_reverse text (x y : nat) :
  x < length text ->
  cell (reverse text) x y = cell text (length text - 1 - x) y.
Proof.
  intros Hx. unfold cell. rewrite reverse_lookup by done.
  by replace (length text - S x) with (length text - 1 - x) by lia.
Qed.

Lemma diag2_line text (n i : nat) :
  length text = n ->
  Forall (fun row => length row = n) text ->
  i < 2 * n - 1 ->
  exists line,
    diag2 text !! i = Some line
    /\ length line = Nat.min (i + 1) (2 * n - 1 - i)
    /\ forall k, k < length line ->
                 line !! k
                 = cell text (n - 1 - (i + 1 - n + k)) (i - (i + 1 - n + k)).
Proof.
  intros Hn Hrows Hi. rewrite diag2_mirror.
  destruct (diag1_line (reverse text) n i) as (line & Hline & Hlen & Hchars).
  - by rewrite length_reverse.
  - by apply Forall_reverse.
  - done.
  - exists line. split; [done |]. split; [done |].
    intros k Hk. rewrite (Hchars k Hk), cell_reverse by lia. by rewrite Hn.
Qed.

(** The columns of the vertically mirrored grid are the mirrored columns
    of the grid; this holds for ragged grids too. *)
Theorem day4_transposed_reverse text :
  transposed (reverse text) = reverse <$> transposed text.
Proof. apply transposed_reverse. Qed.

(** The second family of diagonals is the first family of the vertically
    mirrored grid. *)
Theorem day4_diag2_mirror text : diag2 text = diag1 (reverse text).
Proof. apply diag2_mirror. Qed.

(** Line [i] of the diagonal extraction visits the cells [(k, i-k)] of the
    grid in the order of increasing [k], from the smallest [k] that keeps
    [i-k] inside the grid to the largest [k] that is itself inside; no
    cell is visited twice. *)
Theorem day4_diag_cells (n i : nat) :
  diag_cells (Z.of_nat n) i
  = (fun k => (Some (Z.of_nat k), Some (Z.of_nat (i - k))))
      <$> seq (i + 1 - n) (Nat.min (i + 1) n - (i + 1 - n)).
Proof. apply diag_cells_seq. Qed.

(** In a square grid of size [n], line [i] of [diag1] has
    [min (i+1) (2n-1-i)] characters (1 at the corners, [n] in the middle),
    and its character [k] is the one in row [lo + k] and column
    [i - (lo + k)], where [lo] is [i + 1 - n] cut off at 0. *)
Theorem day4_diag1_line text (n i : nat) :
  length text = n ->
  Forall (fun row => length row = n) text ->
  i < 2 * n - 1 ->
  exists line,
    diag1 text !! i = Some line
    /\ length line = Nat.min (i + 1) (2 * n - 1 - i)
    /\ forall k, k < length line ->
                 line !! k = cell text (i + 1 - n + k) (i - (i + 1 - n + k)).
Proof. apply diag1_line. Qed.

Lemma day4_diag1_line_witness :
  let text := split newline example in
  length text = 10 /\ Forall (fun row => length row = 10) text /\ 12 < 2 * 10 - 1
  /\ exists line,
      diag1 text !! 12 = Some line
      /\ length line = Nat.min (12 + 1) (2 * 10 - 1 - 12)
      /\ forall k, k < length line ->
                   line !! k = cell text (12 + 1 - 10 + k) (12 - (12 + 1 - 10 + k)).
Proof.
  intros text.
  assert (length text = 10) as H1 by reflexivity.
  assert (Forall (fun row => length row = 10) text) as H2
    by (apply (bool_decide_unpack _); vm_compute; exact I).
  assert (12 < 2 * 10 - 1) as H3 by lia.
  split; [exact H1 |]. split; [exact H2 |]. split; [exact H3 |].
  exact (day4_diag1_line text 10 12 H1 H2 H3).
Defined.

(** In a square grid of size [n], line [i] of [diag2] has the same length
    as line [i] of [diag1] and reads the same columns, in the rows counted
    from the bottom of the grid. *)
Theorem day4_diag2_line text (n i : nat) :
  length text = n ->
  Forall (fun row => length row = n) text ->
  i < 2 * n - 1 ->
  exists line,
    diag2 text !! i = Some line
    /\ length line = Nat.min (i + 1) (2 * n - 1 - i)
    /\ forall k, k < length line ->
                 line !! k
                 = cell text (n - 1 - (i + 1 - n + k)) (i - (i + 1 - n + k)).
Proof. apply diag2_line. Qed.

Lemma day4_diag2_line_witness :
  let text := split newline example in
  length text = 10 /\ Forall (fun row => length row = 10) text /\ 3 < 2 * 10 - 1
  /\ exists line,
      diag2 text !! 3 = Some line
      /\ length line = Nat.min (3 + 1) (2 * 10 - 1 - 3)
      /\ forall k, k < length line ->
                   line !! k
                   = cell text (10 - 1 - (3 + 1 - 10 + k)) (3 - (3 + 1 - 10 + k)).
Proof.
  intros text.
  assert (length text = 10) as H1 by reflexivity.
  assert (Forall (fun row => length row = 10) text) as H2
    by (apply (bool_decide_unpack _); vm_compute; exact I).
  assert (3 < 2 * 10 - 1) as H3 by lia.
  split; [exact H1 |]. split; [exact H2 |]. split; [exact H3 |].
  exact (day4_diag2_line text 10 3 H1 H2 H3).
Defined.

Lemma occurrences_chars (p l : list ascii) (c : ascii) :
  occurrences p l <> 0 -> c ∈ p -> c ∈ l.
Proof.
  intros H Hc. induction l as [|a t IH]; [done |].
  cbn [occurrences] in H. case_bool_decide as Hp.
  - destruct Hp as [k ->]. apply elem_of_app. by left.
  - apply list_elem_of_further, IH. lia.
Qed.

Lemma line_count_without line (c : ascii) :
  c ∈ list_ascii_of_string "XMAS" -> c ∉ line -> line_count line = 0.
Proof.
  intros Hc Hline. unfold line_count, match_count.
  rewrite match_count_from_XMAS, match_count_from_SAMX, !drop_0.
  destruct (decide (occurrences (list_ascii_of_string "XMAS") line = 0)) as [->|H1].
  - destruct (decide (occurrences (list_ascii_of_string "SAMX") line = 0))
      as [->|H2]; [done |].
    destruct Hline. apply (occurrences_chars _ _ c H2).
    simpl in *. rewrite !elem_of_cons in *. tauto.
  - destruct Hline. by apply (occurrences_chars _ _ c H1).
Qed.

Lemma split_chars (sep c : ascii) (s row : list ascii) :
  row ∈ split sep s -> c ∈ row -> c ∈ s.
Proof.
  revert row. induction s as [|a s IH]; intros row Hrow Hc.
  - apply list_elem_of_singleton in Hrow as ->. done.
  - rewrite split_cons_eq in Hrow. destruct (Ascii.eqb a sep).
    + apply elem_of_cons in Hrow as [-> | Hrow]; [by apply elem_of_nil in Hc |].
      apply list_elem_of_further. by eapply IH.
    + pose proof (split_nonempty sep s) as Hne.
      destruct (split sep s) as [|r rs]; [done |].
      apply elem_of_cons in Hrow as [-> | Hrow].
      * apply elem_of_cons in Hc as [-> | Hc]; [apply list_elem_of_here |].
        apply list_elem_of_further. apply (IH r); [apply list_elem_of_here | done].
      * apply list_elem_of_further. apply (IH row); [| done].
        by apply list_elem_of_further.
Qed.

Lemma char_at_elem text (x y : Z) (c : ascii) :
  char_at text x y = Some c -> exists row, row ∈ text /\ c ∈ row.
Proof.
  unfold char_at, get. intros H.
  destruct (x <? 0)%Z; [done |].
  destruct (text !! Z.to_nat x) as [row|] eqn:Hrow; [| done].
  destruct (y <? 0)%Z; [done |].
  exists row. split; by eapply list_elem_of_lookup_2.
Qed.

(** Every character of an extracted line is a character of some row. *)
Lemma lines_chars text line (c : ascii) :
  line ∈ concat (lines text) -> c ∈ line -> exists row, row ∈ text /\ c ∈ row.
Proof.
  unfold lines. simpl. rewrite app_nil_r, !elem_of_app.
  intros [H | [H | [H | H]]] Hc.
  - by exists line.
  - unfold transposed, unzip in H.
    apply list_elem_of_fmap in H as (col & -> & H).
    apply list_elem_of_fmap in H as (j & -> & _).
    apply list_elem_of_omap in Hc as (o & Ho & Eo). unfold id in Eo. subst o.
    apply list_elem_of_fmap in Ho as (row & Hrow & Hin).
    exists row. split; [done |]. by eapply list_elem_of_lookup_2.
  - unfold diag1 in H. apply list_elem_of_fmap in H as (i & -> & _).
    apply list_elem_of_omap in Hc as (o & Ho & Eo). unfold id in Eo. subst o.
    apply list_elem_of_fmap in Ho as ([[x|] [y|]] & Hxy & _); try done.
    by eapply char_at_elem.
  - unfold diag2 in H. apply list_elem_of_fmap in H as (i & -> & _).
    apply list_elem_of_omap in Hc as (o & Ho & Eo). unfold id in Eo. subst o.
    apply list_elem_of_fmap in Ho as ([[x|] [y|]] & Hxy & _); try done.
    by eapply char_at_elem.
Qed.

Lemma sum_list_with_zero {A} (f : A -> nat) (l : list A) :
  (forall a, a ∈ l -> f a = 0) -> sum_list_with f l = 0.
Proof.
  induction l as [|a l IH]; intros H; [done |].
  simpl. rewrite H by apply list_elem_of_here.
  apply IH. intros; apply H. by apply list_elem_of_further.
Qed.

(** [part1Solution] finds nothing in an input that lacks one of the four
    letters of the word. *)
Theorem day4_part1_missing_letter input (c : ascii) :
  c ∈ list_ascii_of_string "XMAS" ->
  c ∉ input ->
  part1Solution input = 0.
Proof.
  intros Hc Hinput. rewrite part1Solution_sum.
  apply sum_list_with_zero. intros line Hline.
  apply (line_count_without line c Hc). intros Hin.
  destruct (lines_chars _ _ _ Hline Hin) as (row & Hrow & Hcr).
  apply Hinput. by eapply split_chars.
Qed.

Lemma day4_part1_missing_letter_witness :
  let input := list_ascii_of_string "XMXS
MMXX
SXAM
SXXS" in
  "A"%char ∈ list_ascii_of_string "XMAS" /\ part1Solution (List.filter (fun c => negb (Ascii.eqb c "A")) input) = 0.
Proof.
  intros input.
  assert ("A"%char ∈ list_ascii_of_string "XMAS") as H1
    by (apply (bool_decide_unpack _); vm_compute; exact I).
  assert ("A"%char ∉ List.filter (fun c => negb (Ascii.eqb c "A")) input) as H2
    by (apply (bool_decide_unpack _); vm_compute; exact I).
  split; [exact H1 |].
  exact (day4_part1_missing_letter _ "A"%char H1 H2).
Defined.

End GridMore.


(** ** Day 5: the middle page *)
Section Middle.
Import Day5.

(** A list that is not empty has a middle page, which is one of its pages;
    for a list of odd length it is the page with as many pages before it as
    after it, so that reading the list backwards gives the same middle
    page. *)
Theorem day5_middle (pages : list Z) :
  (pages <> [] -> exists p, middle pages = Some p /\ p ∈ pages)
  /\ (forall k, length pages = 2 * k + 1 ->
                middle pages = pages !! k
                /\ middle (reverse pages) = middle pages).
Proof.
  unfold middle. split.
  - intros Hne.
    destruct (lookup_lt_is_Some_2 pages (length pages / 2)) as [p Hp].
    { destruct pages; [done |]. apply Nat.div_lt; simpl; lia. }
    exists p. split; [done | by eapply list_elem_of_lookup_2].
  - intros k Hk. rewrite length_reverse, Hk.
    replace ((2 * k + 1) / 2) with k
      by (apply (Nat.div_unique _ 2 k 1); lia).
    split; [done |]. rewrite reverse_lookup by lia. f_equal. lia.
Qed.

End Middle.
